(** * Infrared obstacle avoider: a shallow embedding of
      [ros_ir_avoidance/scripts/infrared_avoider.py]

    The node keeps the latest range of three infrared sensors (left, front,
    right), and ten times a second turns them into a [Twist] published on
    [/cmd_vel].  Python floats are IEEE 754 binary64 numbers; they are
    modelled by the Standard Library's [spec_float] at precision 53 and
    maximal exponent 1024, so that infinities, NaN, signed zeros and rounding
    behave as they do in the interpreter. *)

From Stdlib Require Import ZArith List.
From Stdlib Require Import Floats.SpecFloat.
Import ListNotations.

Set Implicit Arguments.

(** ** Python floats *)

Module PyFloat.

Definition prec : Z := 53.
Definition emax : Z := 1024.

Definition float : Type := spec_float.

(** [float('inf')] and [float('nan')]. *)
Definition inf : float := S754_infinity false.
Definition nan : float := S754_nan.

(** The float nearest to the integer [n] (exact for the small ones used
    below). *)
Definition of_Z (n : Z) : float := binary_normalize prec emax n 0 false.

(** Arithmetic: [x * y], unary [-x], [abs(x)]. *)
Definition mul (x y : float) : float := SFmul prec emax x y.
Definition neg (x : float) : float := SFopp x.
Definition abs (x : float) : float := SFabs x.

(** Comparisons: [x < y], [x > y], [x <= y], [x >= y], [x == y].  Each is
    [False] as soon as one side is NaN. *)
Definition lt (x y : float) : bool := SFltb x y.
Definition gt (x y : float) : bool := SFltb y x.
Definition le (x y : float) : bool := SFleb x y.
Definition ge (x y : float) : bool := SFleb y x.
Definition eqb (x y : float) : bool := SFeqb x y.

Definition is_nan (x : float) : bool :=
  match x with S754_nan => true | _ => false end.

Definition is_finite (x : float) : bool :=
  match x with S754_zero _ | S754_finite _ _ _ => true | _ => false end.

(** A float in the form the arithmetic produces and the comparisons
    expect: mantissa and exponent canonical for binary64. *)
Definition valid (x : float) : bool := valid_binary prec emax x.

(** The float a decimal literal [n/d] denotes: the correctly rounded
    quotient of two exactly represented integers. *)
Definition of_ratio (n d : Z) : float := SFdiv prec emax (of_Z n) (of_Z d).

(** The literals of the source, in canonical form. *)
Definition f0_0 : float := S754_zero false.                          (* 0.0 *)
Definition f0_2 : float := S754_finite false 7205759403792794 (-55). (* 0.2 *)
Definition f0_3 : float := S754_finite false 5404319552844595 (-54). (* 0.3 *)
Definition f0_5 : float := S754_finite false 4503599627370496 (-53). (* 0.5 *)
Definition f1_2 : float := S754_finite false 5404319552844595 (-52). (* 1.2 *)

End PyFloat.

Import PyFloat.

Declare Scope pyfloat_scope.
Delimit Scope pyfloat_scope with py.
Infix "<?" := lt (at level 70, no associativity) : pyfloat_scope.
Infix ">?" := gt (at level 70, no associativity) : pyfloat_scope.
Infix "==?" := eqb (at level 70, no associativity) : pyfloat_scope.
Infix "*" := mul : pyfloat_scope.
Notation "- x" := (neg x) : pyfloat_scope.

(** ** Messages *)

(** [geometry_msgs/Vector3] and [geometry_msgs/Twist]; [Twist()] has every
    component [0.0]. *)
Module geometry_msgs.

Record Vector3 : Type := { x : float; y : float; z : float }.

Record Twist : Type := { linear : Vector3; angular : Vector3 }.

Definition Vector3_new : Vector3 := {| x := f0_0; y := f0_0; z := f0_0 |}.

Definition Twist_new : Twist :=
  {| linear := Vector3_new; angular := Vector3_new |}.

(** [twist.linear.x = v] *)
Definition set_linear_x (twist : Twist) (v : float) : Twist :=
  {| linear := {| x := v; y := y (linear twist); z := z (linear twist) |};
     angular := angular twist |}.

(** [twist.angular.z = v] *)
Definition set_angular_z (twist : Twist) (v : float) : Twist :=
  {| linear := linear twist;
     angular := {| x := x (angular twist); y := y (angular twist); z := v |} |}.

End geometry_msgs.

(** [sensor_msgs/Range], without its header.  The wire format carries the
    float fields in single precision; the callbacks receive them as Python
    floats, so every value below is a binary64 number. *)
Module sensor_msgs.

Record Range : Type := {
  radiation_type : Z;
  field_of_view : float;
  min_range : float;
  max_range : float;
  range : float
}.

End sensor_msgs.

Import geometry_msgs sensor_msgs.

(** ** The ROS side of the node *)

(** What [rospy.loginfo] and [rospy.logwarn] are called with.  The texts of
    the source are kept as constructors, in the order they appear there; the
    warning of the front branch formats the front distance into its text. *)
Inductive LogText : Type :=
| NodeStarted
| FrontObstacle (front : float)
| TurningLeft
| TurningRight
| LeftObstacle
| RightObstacle
| NodeStopped.

Inductive LogLevel : Type := INFO | WARN.

Definition LogRecord : Type := (LogLevel * LogText)%type.

(** The world outside the object: the messages handed to the publisher of
    [/cmd_vel] and the log, both oldest first. *)
Record World : Type := {
  cmd_vel : list Twist;
  rosout : list LogRecord
}.

(** The exceptions the script distinguishes: [rospy.ROSInterruptException]
    (with its subclasses) and any other one. *)
Inductive exn : Type := ROSInterruptException | OtherException.

Definition is_interrupt (e : exn) : bool :=
  match e with ROSInterruptException => true | OtherException => false end.

Inductive Result (A : Type) : Type :=
| Return (a : A)
| Raise (e : exn).
Arguments Return {A} a.
Arguments Raise {A} e.

(** ** A state and exception monad for method bodies *)

Section Monad.

Variable S : Type.

Definition M (A : Type) : Type := S -> Result A * S.

Definition ret {A} (a : A) : M A := fun s => (Return a, s).

Definition raise {A} (e : exn) : M A := fun s => (Raise e, s).

Definition bind {A B} (m : M A) (k : A -> M B) : M B :=
  fun s =>
    match m s with
    | (Return a, s') => k a s'
    | (Raise e, s') => (Raise e, s')
    end.

(** [try: body / except E: handler], for the exceptions [catches] holds
    of. *)
Definition try_except {A} (body : M A) (catches : exn -> bool)
           (handler : M A) : M A :=
  fun s =>
    match body s with
    | (Raise e, s') => if catches e then handler s' else (Raise e, s')
    | done => done
    end.

(** [try: body / finally: final]: [final] runs however [body] ends; a
    pending exception goes on afterwards unless [final] raises its own. *)
Definition try_finally {A} (body : M A) (final : M unit) : M A :=
  fun s =>
    match body s with
    | (r, s') =>
        match final s' with
        | (Return _, s'') => (r, s'')
        | (Raise e, s'') => (Raise e, s'')
        end
    end.

Definition state_of {A} (m : M A) (s : S) : S := snd (m s).
Definition result_of {A} (m : M A) (s : S) : Result A := fst (m s).

End Monad.

Arguments ret {S A} a.
Arguments raise {S A} e.
Arguments bind {S A B} m k.
Arguments try_except {S A} body catches handler.
Arguments try_finally {S A} body final.
Arguments state_of {S A} m s.
Arguments result_of {S A} m s.

Notation "m ;; k" := (bind m (fun _ => k))
  (at level 61, right associativity).
Notation "a <- m ;; k" := (bind m (fun a => k))
  (at level 61, m at next level, right associativity).

(** [self.cmd_vel_pub.publish(twist)], [rospy.loginfo], [rospy.logwarn]. *)
Definition publish (twist : Twist) : M World unit :=
  fun w => (Return tt, {| cmd_vel := cmd_vel w ++ [twist]; rosout := rosout w |}).

Definition log (level : LogLevel) (text : LogText) : M World unit :=
  fun w => (Return tt,
            {| cmd_vel := cmd_vel w; rosout := rosout w ++ [(level, text)] |}).

Definition loginfo : LogText -> M World unit := log INFO.
Definition logwarn : LogText -> M World unit := log WARN.

(** ** The node object *)

(** The fields [__init__] assigns.  [rate] is the frequency given to
    [rospy.Rate]; the publisher is the [cmd_vel] component of the world. *)
Record InfraredObstacleAvoider : Type := {
  obstacle_threshold : float;
  left_dist : float;
  front_dist : float;
  right_dist : float;
  linear_speed : float;
  angular_speed : float;
  rate : Z
}.

(** The factor of the side checks, the literal [1.2] of [avoid_obstacle]. *)
Definition side_margin_factor : float := f1_2.

(** [rospy.get_param('~obstacle_threshold', 0.3)]: the private parameter when
    it is set (a float here), the default otherwise. *)
Definition get_param (server : option float) (default : float) : float :=
  match server with
  | Some v => v
  | None => default
  end.

(** [InfraredObstacleAvoider()]: no statement of [__init__] inspects a
    value, so it returns the object whatever the parameter is. *)
Definition __init__ (server : option float) : M World InfraredObstacleAvoider :=
  let obstacle_threshold := get_param server f0_3 in
  loginfo NodeStarted ;;
  ret {| obstacle_threshold := obstacle_threshold;
         left_dist := inf;
         front_dist := inf;
         right_dist := inf;
         linear_speed := f0_2;
         angular_speed := f0_5;
         rate := 10 |}.

(** The running node: the object and the world it publishes to. *)
Record Sys : Type := {
  self : InfraredObstacleAvoider;
  ros : World
}.

(** Reading and assigning attributes of [self], and running a ROS call. *)
Definition get_self : M Sys InfraredObstacleAvoider :=
  fun s => (Return (self s), s).

Definition set_self (f : InfraredObstacleAvoider -> InfraredObstacleAvoider)
  : M Sys unit :=
  fun s => (Return tt, {| self := f (self s); ros := ros s |}).

Definition lift {A} (m : M World A) : M Sys A :=
  fun s => let (r, w) := m (ros s) in (r, {| self := self s; ros := w |}).

Definition set_left_dist (v : float) (a : InfraredObstacleAvoider) :=
  {| obstacle_threshold := obstacle_threshold a;
     left_dist := v;
     front_dist := front_dist a;
     right_dist := right_dist a;
     linear_speed := linear_speed a;
     angular_speed := angular_speed a;
     rate := rate a |}.

Definition set_front_dist (v : float) (a : InfraredObstacleAvoider) :=
  {| obstacle_threshold := obstacle_threshold a;
     left_dist := left_dist a;
     front_dist := v;
     right_dist := right_dist a;
     linear_speed := linear_speed a;
     angular_speed := angular_speed a;
     rate := rate a |}.

Definition set_right_dist (v : float) (a : InfraredObstacleAvoider) :=
  {| obstacle_threshold := obstacle_threshold a;
     left_dist := left_dist a;
     front_dist := front_dist a;
     right_dist := v;
     linear_speed := linear_speed a;
     angular_speed := angular_speed a;
     rate := rate a |}.

(** The three subscriber callbacks. *)
Definition left_cb (msg : Range) : M Sys unit :=
  set_self (set_left_dist (range msg)).

Definition front_cb (msg : Range) : M Sys unit :=
  set_self (set_front_dist (range msg)).

Definition right_cb (msg : Range) : M Sys unit :=
  set_self (set_right_dist (range msg)).

(** The topics [__init__] subscribes to, each with its callback. *)
Inductive Topic : Type := infrared_left | infrared_front | infrared_right.

Definition subscriber (topic : Topic) : Range -> M Sys unit :=
  match topic with
  | infrared_left => left_cb
  | infrared_front => front_cb
  | infrared_right => right_cb
  end.

(** ** The avoidance step *)

Definition avoid_obstacle : M Sys unit :=
  let twist := Twist_new in
  self <- get_self ;;
  twist <-
    (if (front_dist self <? obstacle_threshold self)%py then
       lift (logwarn (FrontObstacle (front_dist self))) ;;
       let twist := set_linear_x twist f0_0 in
       if (left_dist self >? right_dist self)%py then
         lift (loginfo TurningLeft) ;;
         ret (set_angular_z twist (angular_speed self))
       else
         lift (loginfo TurningRight) ;;
         ret (set_angular_z twist (- angular_speed self)%py)
     else
       let twist := set_linear_x twist (linear_speed self) in
       let twist := set_angular_z twist f0_0 in
       if (left_dist self <? obstacle_threshold self * f1_2)%py then
         lift (loginfo LeftObstacle) ;;
         ret (set_angular_z twist (- angular_speed self * f0_5)%py)
       else if (right_dist self <? obstacle_threshold self * f1_2)%py then
         lift (loginfo RightObstacle) ;;
         ret (set_angular_z twist (angular_speed self * f0_5)%py)
       else
         ret twist) ;;
  lift (publish twist).

(** ** The loop *)

(** What the environment does during one round of the loop of [run]: the
    messages the subscriber threads deliver before the step, and how
    [self.rate.sleep()] ends. *)
Inductive SleepOutcome : Type :=
| Slept
| Interrupted            (* raises ROSInterruptException *)
| Failed.                (* raises another exception *)

Record Round : Type := {
  arrivals : list (Topic * Range);
  sleep_outcome : SleepOutcome
}.

Definition rate_sleep (o : SleepOutcome) : M Sys unit :=
  match o with
  | Slept => ret tt
  | Interrupted => raise ROSInterruptException
  | Failed => raise OtherException
  end.

Fixpoint deliver (msgs : list (Topic * Range)) : M Sys unit :=
  match msgs with
  | [] => ret tt
  | (topic, msg) :: rest => subscriber topic msg ;; deliver rest
  end.

(** [while not rospy.is_shutdown(): ...]: [is_shutdown()] is [False] once
    for each round of the script and [True] when the script is used up. *)
Fixpoint loop (script : list Round) : M Sys unit :=
  match script with
  | [] => ret tt
  | round :: rest =>
      deliver (arrivals round) ;;
      avoid_obstacle ;;
      rate_sleep (sleep_outcome round) ;;
      loop rest
  end.

Definition run (script : list Round) : M Sys unit :=
  try_finally
    (try_except (loop script) is_interrupt (lift (loginfo NodeStopped)))
    (let twist := Twist_new in lift (publish twist)).

(** The [__main__] block. *)
Definition main (server : option float) (script : list Round) : M World unit :=
  try_except
    (fun w =>
       match __init__ server w with
       | (Return avoider, w') =>
           let (r, s) := run script {| self := avoider; ros := w' |} in
           (r, ros s)
       | (Raise e, w') => (Raise e, w')
       end)
    is_interrupt
    (ret tt).

(** ** Observations *)

(** The commands and the log records a computation adds to the world. *)
Definition emitted {A} (m : M Sys A) (s : Sys) : list Twist :=
  skipn (length (cmd_vel (ros s))) (cmd_vel (ros (state_of m s))).

Definition logged {A} (m : M Sys A) (s : Sys) : list LogRecord :=
  skipn (length (rosout (ros s))) (rosout (ros (state_of m s))).

(** The two components of a command the node ever sets. *)
Definition linear_x (twist : Twist) : float := x (linear twist).
Definition angular_z (twist : Twist) : float := z (angular twist).

(** A command with the given forward speed and turn rate, all else zero. *)
Definition command (lin ang : float) : Twist :=
  set_angular_z (set_linear_x Twist_new lin) ang.

(** The states the node goes through: the one [__init__] leaves, then any
    sequence of callbacks and avoidance steps. *)
Inductive reachable : Sys -> Prop :=
| reach_init server w avoider w' :
    __init__ server w = (Return avoider, w') ->
    reachable {| self := avoider; ros := w' |}
| reach_cb s topic msg :
    reachable s -> reachable (state_of (subscriber topic msg) s)
| reach_step s :
    reachable s -> reachable (state_of avoid_obstacle s).

(** ** The step and the loop as functions of the object *)

(** The command one avoidance step publishes and the records it logs, read
    off the branches of [avoid_obstacle]; [avoid_obstacle_eq] below proves
    that they are what the method does. *)
Definition compute_command (a : InfraredObstacleAvoider) : Twist :=
  if (front_dist a <? obstacle_threshold a)%py then
    if (left_dist a >? right_dist a)%py
    then command f0_0 (angular_speed a)
    else command f0_0 (- angular_speed a)%py
  else if (left_dist a <? obstacle_threshold a * side_margin_factor)%py then
    command (linear_speed a) (- angular_speed a * f0_5)%py
  else if (right_dist a <? obstacle_threshold a * side_margin_factor)%py then
    command (linear_speed a) (angular_speed a * f0_5)%py
  else
    command (linear_speed a) f0_0.

Definition step_log (a : InfraredObstacleAvoider) : list LogRecord :=
  if (front_dist a <? obstacle_threshold a)%py then
    [(WARN, FrontObstacle (front_dist a));
     (INFO, if (left_dist a >? right_dist a)%py then TurningLeft else TurningRight)]
  else if (left_dist a <? obstacle_threshold a * side_margin_factor)%py then
    [(INFO, LeftObstacle)]
  else if (right_dist a <? obstacle_threshold a * side_margin_factor)%py then
    [(INFO, RightObstacle)]
  else
    [].

(** The object after a batch of sensor messages. *)
Definition store (topic : Topic) (v : float) (a : InfraredObstacleAvoider)
  : InfraredObstacleAvoider :=
  match topic with
  | infrared_left => set_left_dist v a
  | infrared_front => set_front_dist v a
  | infrared_right => set_right_dist v a
  end.

Fixpoint stored (msgs : list (Topic * Range)) (a : InfraredObstacleAvoider)
  : InfraredObstacleAvoider :=
  match msgs with
  | [] => a
  | (topic, msg) :: rest => stored rest (store topic (range msg) a)
  end.

(** The commands of the steps the loop runs, and how many it runs: it stops
    with the script or at the first sleep that raises. *)
Fixpoint loop_commands (script : list Round) (a : InfraredObstacleAvoider)
  : list Twist :=
  match script with
  | [] => []
  | round :: rest =>
      let a' := stored (arrivals round) a in
      compute_command a' ::
        match sleep_outcome round with
        | Slept => loop_commands rest a'
        | _ => []
        end
  end.

Fixpoint steps_run (script : list Round) : nat :=
  match script with
  | [] => O
  | round :: rest =>
      S match sleep_outcome round with
        | Slept => steps_run rest
        | _ => O
        end
  end.

(** How the loop and [run] end: the loop normally or with the exception of
    a sleep; [run] normally also after an interrupt, which it handles. *)
Fixpoint loop_result (script : list Round) : Result unit :=
  match script with
  | [] => Return tt
  | round :: rest =>
      match sleep_outcome round with
      | Slept => loop_result rest
      | Interrupted => Raise ROSInterruptException
      | Failed => Raise OtherException
      end
  end.

Definition run_result (script : list Round) : Result unit :=
  match loop_result script with
  | Raise ROSInterruptException => Return tt
  | r => r
  end.

(** The object [__init__] builds. *)
Definition constructed (server : option float) : InfraredObstacleAvoider :=
  {| obstacle_threshold := get_param server f0_3;
     left_dist := inf;
     front_dist := inf;
     right_dist := inf;
     linear_speed := f0_2;
     angular_speed := f0_5;
     rate := 10 |}.

(** ** Vocabulary of the statements *)

(** A parameter the configuration table accepts: finite and above zero. *)
Definition positive_finite (v : float) : bool :=
  is_finite v && (f0_0 <? v)%py.

(** A reading with NaN replaced by the "unknown" distance. *)
Definition unknown_of_nan (v : float) : float :=
  if is_nan v then inf else v.

(** The node with NaN replaced by infinity in the front and right readings,
    and in all three. *)
Definition unknown_front_right (s : Sys) : Sys :=
  {| self := set_front_dist (unknown_of_nan (front_dist (self s)))
               (set_right_dist (unknown_of_nan (right_dist (self s))) (self s));
     ros := ros s |}.

Definition unknown_all (s : Sys) : Sys :=
  {| self := set_left_dist (unknown_of_nan (left_dist (self s)))
               (self (unknown_front_right s));
     ros := ros s |}.

(** Two objects with the same readings and the same control parameters. *)
Definition same_inputs (a b : InfraredObstacleAvoider) : Prop :=
  left_dist a = left_dist b /\ front_dist a = front_dist b /\
  right_dist a = right_dist b /\
  obstacle_threshold a = obstacle_threshold b /\
  linear_speed a = linear_speed b /\ angular_speed a = angular_speed b.

(** Sample values: [-1.0], [0.25], [1.0], a message carrying a range, and
    the node as [__init__] leaves it with the default threshold. *)
Definition minus_one : float := S754_finite true 4503599627370496 (-52).
Definition f0_25 : float := S754_finite false 4503599627370496 (-54).
Definition f1_0 : float := S754_finite false 4503599627370496 (-52).

Definition reading (v : float) : Range :=
  {| radiation_type := 1; field_of_view := f0_5;
     min_range := f0_0; max_range := f1_0; range := v |}.

Definition empty_world : World := {| cmd_vel := []; rosout := [] |}.

Definition fresh_node : Sys :=
  {| self := {| obstacle_threshold := f0_3; left_dist := inf;
                front_dist := inf; right_dist := inf;
                linear_speed := f0_2; angular_speed := f0_5; rate := 10 |};
     ros := {| cmd_vel := []; rosout := [(INFO, NodeStarted)] |} |}.

(** The fresh node after one message from each sensor. *)
Definition node_with (front left right : float) : Sys :=
  state_of (deliver [(infrared_front, reading front);
                     (infrared_left, reading left);
                     (infrared_right, reading right)]) fresh_node.

(** A node with threshold [0.25] whose front and left distances sit exactly
    on their bounds ([0.25 * 1.2] is [0.3]). *)
Definition boundary_node : Sys :=
  {| self := {| obstacle_threshold := f0_25; left_dist := f0_3;
                front_dist := f0_25; right_dist := inf;
                linear_speed := f0_2; angular_speed := f0_5; rate := 10 |};
     ros := {| cmd_vel := []; rosout := [(INFO, NodeStarted)] |} |}.

(** ** Vocabulary of the further properties *)

Definition topic_eqb (t u : Topic) : bool :=
  match t, u with
  | infrared_left, infrared_left
  | infrared_front, infrared_front
  | infrared_right, infrared_right => true
  | _, _ => false
  end.

(** The distance the object holds for the sensor of a topic. *)
Definition dist_of (topic : Topic) (a : InfraredObstacleAvoider) : float :=
  match topic with
  | infrared_left => left_dist a
  | infrared_front => front_dist a
  | infrared_right => right_dist a
  end.

(** The range of the last message of a batch on a topic, if there is one. *)
Fixpoint last_range (topic : Topic) (msgs : list (Topic * Range))
  : option float :=
  match msgs with
  | [] => None
  | (t, msg) :: rest =>
      match last_range topic rest with
      | Some v => Some v
      | None => if topic_eqb topic t then Some (range msg) else None
      end
  end.

(** The rounds the loop gets to: those up to the first sleep that raises. *)
Fixpoint executed (script : list Round) : list Round :=
  match script with
  | [] => []
  | round :: rest =>
      round :: match sleep_outcome round with
               | Slept => executed rest
               | _ => []
               end
  end.

(** The object and the log records the loop leaves behind. *)
Fixpoint loop_self (script : list Round) (a : InfraredObstacleAvoider)
  : InfraredObstacleAvoider :=
  match script with
  | [] => a
  | round :: rest =>
      let a' := stored (arrivals round) a in
      match sleep_outcome round with
      | Slept => loop_self rest a'
      | _ => a'
      end
  end.

Fixpoint loop_log (script : list Round) (a : InfraredObstacleAvoider)
  : list LogRecord :=
  match script with
  | [] => []
  | round :: rest =>
      let a' := stored (arrivals round) a in
      step_log a' ++
        match sleep_outcome round with
        | Slept => loop_log rest a'
        | _ => []
        end
  end.

(** The control parameters of an object: threshold, speeds and rate. *)
Definition parameters (a : InfraredObstacleAvoider) : float * float * float * Z :=
  (obstacle_threshold a, linear_speed a, angular_speed a, rate a).

(** The node with its left and right distances exchanged, and a command
    with its turn reversed. *)
Definition swap_sides (s : Sys) : Sys :=
  {| self := set_left_dist (right_dist (self s))
               (set_right_dist (left_dist (self s)) (self s));
     ros := ros s |}.

Definition mirror (twist : Twist) : Twist :=
  set_angular_z twist (- angular_z twist)%py.

(** A command that moves along the heading and turns about the vertical
    axis only. *)
Definition planar (twist : Twist) : Prop :=
  y (linear twist) = f0_0 /\ z (linear twist) = f0_0 /\
  x (angular twist) = f0_0 /\ y (angular twist) = f0_0.

(** A reading that is no distance below zero: zero, positive, infinite or
    NaN; and a threshold that is zero, negative or NaN. *)
Definition not_negative (v : float) : bool :=
  match v with
  | S754_nan | S754_zero _ => true
  | S754_infinity sign | S754_finite sign _ _ => negb sign
  end.

Definition not_positive (v : float) : bool :=
  match v with
  | S754_nan | S754_zero _ => true
  | S754_infinity sign | S754_finite sign _ _ => sign
  end.

(** Whether the loop ends by an interrupt of the sleep. *)
Definition interrupted (script : list Round) : bool :=
  match loop_result script with
  | Raise ROSInterruptException => true
  | _ => false
  end.

(** A round with no message and a normal sleep, and batches for samples. *)
Definition quiet_round : Round := {| arrivals := []; sleep_outcome := Slept |}.

Definition interrupt_round : Round :=
  {| arrivals := [(infrared_front, reading f0_25)];
     sleep_outcome := Interrupted |}.

Definition failing_round : Round :=
  {| arrivals := []; sleep_outcome := Failed |}.

(** * Properties *)

(** ** Floats *)

(** The literals are what the decimal notation rounds to. *)
Lemma literals_correct :
  of_ratio 1 5 = f0_2 /\ of_ratio 3 10 = f0_3 /\
  of_ratio 1 2 = f0_5 /\ of_ratio 6 5 = f1_2 /\
  of_ratio 1 4 = f0_25 /\ of_Z 1 = f1_0 /\ of_Z (-1) = minus_one /\
  forallb valid [f0_0; f0_2; f0_3; f0_5; f1_2; f0_25; f1_0; minus_one] = true.
Proof. repeat split; vm_compute; reflexivity. Qed.

(** Swapping the sides of a comparison swaps its outcome. *)
Lemma SFcompare_swap (a b : float) :
  SFcompare b a = option_map CompOpp (SFcompare a b).
Proof.
  destruct a as [sa|sa| |sa ma ea], b as [sb|sb| |sb mb eb]; simpl;
    try reflexivity;
    try (destruct sa; reflexivity);
    try (destruct sb; reflexivity);
    try (destruct sa, sb; reflexivity).
  destruct sa, sb; try reflexivity;
    rewrite (Z.compare_antisym ea eb);
    destruct (ea ?= eb)%Z; simpl; try reflexivity;
    rewrite (Pos.compare_cont_antisym ma mb Eq);
    simpl; destruct (Pos.compare_cont Eq ma mb); reflexivity.
Qed.

Lemma eqb_not_lt (a b : float) : (a ==? b)%py = true -> (a <? b)%py = false.
Proof.
  unfold eqb, lt, SFeqb, SFltb.
  destruct (SFcompare a b) as [[ | | ]|]; intros H; try discriminate; reflexivity.
Qed.

Lemma eqb_not_gt (a b : float) : (a ==? b)%py = true -> (a >? b)%py = false.
Proof.
  unfold eqb, gt, SFeqb, SFltb. rewrite (SFcompare_swap a b).
  destruct (SFcompare a b) as [[ | | ]|]; intros H; try discriminate; reflexivity.
Qed.

Lemma ge_not_lt (a b : float) : ge a b = true -> (a <? b)%py = false.
Proof.
  unfold ge, lt, SFleb, SFltb. rewrite (SFcompare_swap a b).
  destruct (SFcompare a b) as [[ | | ]|]; intros H; try discriminate; reflexivity.
Qed.

(** Neither infinity nor NaN is below anything, and nothing is above
    infinity. *)
Lemma inf_not_lt (b : float) : (inf <? b)%py = false.
Proof. destruct b as [sb|sb| |sb mb eb]; try reflexivity; destruct sb; reflexivity. Qed.

Lemma nan_not_lt (b : float) : (nan <? b)%py = false.
Proof. reflexivity. Qed.

Lemma not_gt_inf (a : float) : (a >? inf)%py = false.
Proof. apply inf_not_lt. Qed.

Lemma nan_not_gt (a : float) : (nan >? a)%py = false.
Proof. destruct a; reflexivity. Qed.

Lemma not_gt_nan (a : float) : (a >? nan)%py = false.
Proof. reflexivity. Qed.

Lemma unknown_of_nan_lt (v b : float) :
  (unknown_of_nan v <? b)%py = (v <? b)%py.
Proof. destruct v; simpl; try reflexivity. rewrite inf_not_lt. reflexivity. Qed.

Lemma unknown_of_nan_right (a v : float) :
  (a >? unknown_of_nan v)%py = (a >? v)%py.
Proof. destruct v; simpl; try reflexivity. rewrite not_gt_inf. reflexivity. Qed.

(** ** What the methods do *)

Lemma skipn_app_exact {A} (l k : list A) : skipn (length l) (l ++ k) = k.
Proof. induction l as [|h l IH]; simpl; [reflexivity | exact IH]. Qed.

(** One avoidance step returns normally, keeps the object, publishes one
    command and appends its log records. *)
Lemma avoid_obstacle_eq (s : Sys) :
  avoid_obstacle s =
  (Return tt,
   {| self := self s;
      ros := {| cmd_vel := cmd_vel (ros s) ++ [compute_command (self s)];
                rosout := rosout (ros s) ++ step_log (self s) |} |}).
Proof.
  destruct s as [a [cv lg]].
  unfold avoid_obstacle, compute_command, step_log, side_margin_factor,
    bind, get_self, lift, ret, logwarn, loginfo, log, publish; simpl.
  destruct (front_dist a <? obstacle_threshold a)%py; simpl.
  - destruct (left_dist a >? right_dist a)%py; simpl;
      rewrite <- app_assoc; reflexivity.
  - destruct (left_dist a <? obstacle_threshold a * f1_2)%py; simpl;
      [reflexivity|].
    destruct (right_dist a <? obstacle_threshold a * f1_2)%py; simpl;
      [reflexivity|].
    rewrite app_nil_r. reflexivity.
Qed.

Lemma emitted_step (s : Sys) :
  emitted avoid_obstacle s = [compute_command (self s)].
Proof.
  unfold emitted, state_of. rewrite avoid_obstacle_eq. simpl.
  apply skipn_app_exact.
Qed.

Lemma logged_step (s : Sys) :
  logged avoid_obstacle s = step_log (self s).
Proof.
  unfold logged, state_of. rewrite avoid_obstacle_eq. simpl.
  apply skipn_app_exact.
Qed.

Lemma self_step (s : Sys) : self (state_of avoid_obstacle s) = self s.
Proof. unfold state_of. rewrite avoid_obstacle_eq. reflexivity. Qed.

(** A callback stores the range of its message and touches nothing else. *)
Lemma subscriber_eq (topic : Topic) (msg : Range) (s : Sys) :
  subscriber topic msg s =
  (Return tt, {| self := store topic (range msg) (self s); ros := ros s |}).
Proof. destruct topic; reflexivity. Qed.

Lemma deliver_eq (msgs : list (Topic * Range)) (s : Sys) :
  deliver msgs s = (Return tt, {| self := stored msgs (self s); ros := ros s |}).
Proof.
  revert s. induction msgs as [|[topic msg] rest IH]; intros s; simpl.
  - destruct s; reflexivity.
  - unfold bind. rewrite subscriber_eq. rewrite IH. reflexivity.
Qed.

(** The command of a step when the front is not below the threshold. *)
Lemma front_clear_command (a : InfraredObstacleAvoider) :
  (front_dist a <? obstacle_threshold a)%py = false ->
  compute_command a =
  command (linear_speed a)
    (if (left_dist a <? obstacle_threshold a * side_margin_factor)%py
     then (- angular_speed a * f0_5)%py
     else if (right_dist a <? obstacle_threshold a * side_margin_factor)%py
          then (angular_speed a * f0_5)%py
          else f0_0).
Proof.
  intros H. unfold compute_command. rewrite H.
  destruct (left_dist a <? _)%py; [reflexivity|].
  destruct (right_dist a <? _)%py; reflexivity.
Qed.

Lemma front_blocked_command (a : InfraredObstacleAvoider) :
  (front_dist a <? obstacle_threshold a)%py = true ->
  compute_command a =
  command f0_0 (if (left_dist a >? right_dist a)%py
                then angular_speed a else (- angular_speed a)%py).
Proof.
  intros H. unfold compute_command. rewrite H.
  destruct (left_dist a >? right_dist a)%py; reflexivity.
Qed.

(** The speeds never change after [__init__]. *)
Lemma store_speeds (topic : Topic) (v : float) (a : InfraredObstacleAvoider) :
  linear_speed (store topic v a) = linear_speed a /\
  angular_speed (store topic v a) = angular_speed a.
Proof. destruct topic; split; reflexivity. Qed.

Lemma reachable_speeds (s : Sys) :
  reachable s ->
  linear_speed (self s) = f0_2 /\ angular_speed (self s) = f0_5.
Proof.
  induction 1 as [server w avoider w' Hinit | s topic msg Hs IH | s Hs IH].
  - unfold __init__, bind, loginfo, log, ret in Hinit. simpl in Hinit.
    inversion Hinit; subst; simpl. split; reflexivity.
  - unfold state_of. rewrite subscriber_eq. simpl.
    destruct (store_speeds topic (range msg) (self s)) as [Hl Ha].
    rewrite Hl, Ha. exact IH.
  - rewrite self_step. exact IH.
Qed.

(** ** The decision of one step *)

(** A command read field by field: the two fields the step sets, and the
    four it leaves at zero. *)
Lemma command_fields (lin ang : float) :
  linear_x (command lin ang) = lin /\
  angular_z (command lin ang) = ang /\
  planar (command lin ang).
Proof. repeat split. Qed.

(** C1.  When the front distance is below the threshold, the step publishes
    one command; its [linear.x] is [0.0]; its [angular.z] is [angular_speed]
    if the left distance is greater than the right one and [-angular_speed]
    otherwise, so in particular when the two distances are equal; its other
    fields are [0.0]. *)
Theorem front_blocked_turns (s : Sys) :
  (front_dist (self s) <? obstacle_threshold (self s))%py = true ->
  exists c,
    emitted avoid_obstacle s = [c] /\
    linear_x c = f0_0 /\
    angular_z c =
      (if (left_dist (self s) >? right_dist (self s))%py
       then angular_speed (self s)
       else (- angular_speed (self s))%py) /\
    ((left_dist (self s) ==? right_dist (self s))%py = true ->
     angular_z c = (- angular_speed (self s))%py) /\
    planar c.
Proof.
  intros Hfront. exists (compute_command (self s)).
  rewrite emitted_step, (front_blocked_command _ Hfront).
  match goal with |- context [command ?l ?w] =>
    destruct (command_fields l w) as (Hl & Hw & Hp) end.
  repeat split; try assumption.
  intros Htie. rewrite Hw, (eqb_not_gt _ _ Htie). reflexivity.
Qed.

Lemma front_blocked_turns_witness :
  (front_dist (self (node_with f0_25 f0_5 f0_5)) <?
   obstacle_threshold (self (node_with f0_25 f0_5 f0_5)))%py = true /\
  exists c,
    emitted avoid_obstacle (node_with f0_25 f0_5 f0_5) = [c] /\
    linear_x c = f0_0 /\
    angular_z c = (- f0_5)%py.
Proof.
  split; [reflexivity|].
  destruct (front_blocked_turns (node_with f0_25 f0_5 f0_5) eq_refl)
    as (c & Hc & Hl & Hw & _).
  exists c. split; [exact Hc|]. split; [exact Hl | exact Hw].
Defined.

(** C2.  When the front distance is at least the threshold, the step
    publishes one command; its [linear.x] is [linear_speed]; its [angular.z]
    is [-angular_speed * 0.5] if the left distance is below
    [obstacle_threshold * side_margin_factor], whatever the right distance
    is; else [angular_speed * 0.5] if the right distance is below that bound;
    else [0.0]; its other fields are [0.0]. *)
Theorem front_clear_side_nudges (s : Sys) :
  let a := self s in
  let bound := (obstacle_threshold a * side_margin_factor)%py in
  ge (front_dist a) (obstacle_threshold a) = true ->
  exists c,
    emitted avoid_obstacle s = [c] /\
    linear_x c = linear_speed a /\
    angular_z c =
      (if (left_dist a <? bound)%py then (- angular_speed a * f0_5)%py
       else if (right_dist a <? bound)%py then (angular_speed a * f0_5)%py
       else f0_0) /\
    ((left_dist a <? bound)%py = true ->
     (right_dist a <? bound)%py = true ->
     angular_z c = (- angular_speed a * f0_5)%py) /\
    planar c.
Proof.
  intros a bound Hfront. apply ge_not_lt in Hfront.
  exists (compute_command (self s)).
  rewrite emitted_step. fold a. rewrite (front_clear_command a Hfront).
  fold bound.
  match goal with |- context [command ?l ?w] =>
    destruct (command_fields l w) as (Hl & Hw & Hp) end.
  repeat split; try assumption.
  intros Hleft _. rewrite Hw, Hleft. reflexivity.
Qed.

Lemma front_clear_side_nudges_witness :
  ge (front_dist (self (node_with f0_5 f0_25 f0_25)))
     (obstacle_threshold (self (node_with f0_5 f0_25 f0_25))) = true /\
  exists c,
    emitted avoid_obstacle (node_with f0_5 f0_25 f0_25) = [c] /\
    linear_x c = f0_2 /\
    angular_z c = (- f0_25)%py.
Proof.
  split; [reflexivity|].
  destruct (front_clear_side_nudges (node_with f0_5 f0_25 f0_25) eq_refl)
    as (c & Hc & Hl & Hw & _).
  exists c. split; [exact Hc|]. split; [exact Hl | exact Hw].
Defined.

(** C3.  The comparisons with a threshold are strict.  A front distance equal
    to the threshold takes the forward path: the command has [linear.x] equal
    to [linear_speed] and there is no front warning.  A left (right) distance
    equal to [obstacle_threshold * side_margin_factor] does not take the left
    (right) side branch.  In particular, with the front at or above the
    threshold, the left distance equal to the side bound and the right
    distance not below it, the command has [linear.x] equal to
    [linear_speed], [angular.z] equal to [0.0] and nothing else set. *)
Theorem threshold_comparisons_strict (s : Sys) :
  let a := self s in
  let bound := (obstacle_threshold a * side_margin_factor)%py in
  ((front_dist a ==? obstacle_threshold a)%py = true ->
   (exists c, emitted avoid_obstacle s = [c] /\ linear_x c = linear_speed a) /\
   ~ In (WARN, FrontObstacle (front_dist a)) (logged avoid_obstacle s)) /\
  ((left_dist a ==? bound)%py = true ->
   ~ In (INFO, LeftObstacle) (logged avoid_obstacle s)) /\
  ((right_dist a ==? bound)%py = true ->
   ~ In (INFO, RightObstacle) (logged avoid_obstacle s)) /\
  (ge (front_dist a) (obstacle_threshold a) = true ->
   (left_dist a ==? bound)%py = true ->
   (right_dist a <? bound)%py = false ->
   exists c,
     emitted avoid_obstacle s = [c] /\
     linear_x c = linear_speed a /\ angular_z c = f0_0 /\ planar c).
Proof.
  intros a bound. rewrite emitted_step, logged_step. fold a.
  split; [|split; [|split]].
  - intros Hfront. apply eqb_not_lt in Hfront. split.
    + exists (compute_command a). split; [reflexivity|].
      rewrite (front_clear_command a Hfront). apply command_fields.
    + unfold step_log. rewrite Hfront. fold bound.
      destruct (left_dist a <? bound)%py; [|destruct (right_dist a <? bound)%py];
        simpl; intuition discriminate.
  - intros Hleft. apply eqb_not_lt in Hleft. unfold step_log. fold bound.
    rewrite Hleft.
    destruct (front_dist a <? obstacle_threshold a)%py;
      [destruct (left_dist a >? right_dist a)%py
      |destruct (right_dist a <? bound)%py];
      simpl; intuition discriminate.
  - intros Hright. apply eqb_not_lt in Hright. unfold step_log. fold bound.
    rewrite Hright.
    destruct (front_dist a <? obstacle_threshold a)%py;
      [destruct (left_dist a >? right_dist a)%py
      |destruct (left_dist a <? bound)%py];
      simpl; intuition discriminate.
  - intros Hfront Hleft Hright.
    apply ge_not_lt in Hfront. apply eqb_not_lt in Hleft.
    exists (compute_command a). split; [reflexivity|].
    rewrite (front_clear_command a Hfront). fold bound.
    rewrite Hleft, Hright. apply command_fields.
Qed.

Lemma threshold_comparisons_strict_witness :
  (front_dist (self boundary_node) ==?
   obstacle_threshold (self boundary_node))%py = true /\
  (left_dist (self boundary_node) ==?
   obstacle_threshold (self boundary_node) * side_margin_factor)%py = true /\
  (right_dist (self boundary_node) <?
   obstacle_threshold (self boundary_node) * side_margin_factor)%py = false /\
  exists c,
    emitted avoid_obstacle boundary_node = [c] /\
    linear_x c = f0_2 /\ angular_z c = f0_0.
Proof.
  split; [reflexivity|]. split; [reflexivity|]. split; [reflexivity|].
  destruct (proj2 (proj2 (proj2 (threshold_comparisons_strict boundary_node)))
              eq_refl eq_refl eq_refl)
    as (c & Hc & Hl & Hw & _).
  exists c. split; [exact Hc|]. split; [exact Hl | exact Hw].
Defined.

(** ** The loop and its shutdown *)

Lemma emitted_eq {A} (m : M Sys A) (s s' : Sys) (r : Result A) (k : list Twist) :
  m s = (r, s') -> cmd_vel (ros s') = cmd_vel (ros s) ++ k -> emitted m s = k.
Proof.
  intros Hm Hk. unfold emitted, state_of. rewrite Hm. simpl. rewrite Hk.
  apply skipn_app_exact.
Qed.

(** The loop publishes the commands of the steps it runs and nothing else. *)
Lemma loop_eq (script : list Round) (s : Sys) :
  exists s',
    loop script s = (loop_result script, s') /\
    cmd_vel (ros s') = cmd_vel (ros s) ++ loop_commands script (self s).
Proof.
  revert s. induction script as [|round rest IH]; intros s; simpl.
  - exists s. split; [reflexivity|]. rewrite app_nil_r. reflexivity.
  - unfold bind at 1. rewrite deliver_eq.
    unfold bind at 1. rewrite avoid_obstacle_eq. simpl.
    unfold bind at 1.
    destruct (sleep_outcome round); simpl.
    + match goal with |- context [loop rest ?t] => destruct (IH t) as [s' [Hl Hc]] end.
      exists s'. split; [exact Hl|].
      rewrite Hc. simpl. rewrite <- app_assoc. reflexivity.
    + eexists. split; [reflexivity|]. reflexivity.
    + eexists. split; [reflexivity|]. reflexivity.
Qed.

Lemma loop_commands_length (script : list Round) (a : InfraredObstacleAvoider) :
  length (loop_commands script a) = steps_run script.
Proof.
  revert a. induction script as [|round rest IH]; intros a; simpl;
    [reflexivity|].
  destruct (sleep_outcome round); simpl; [rewrite IH|..]; reflexivity.
Qed.

(** [run] adds the stop command to what the loop published, however the
    loop ended. *)
Lemma run_eq (script : list Round) (s : Sys) :
  exists s',
    run script s = (run_result script, s') /\
    cmd_vel (ros s') =
      cmd_vel (ros s) ++ loop_commands script (self s) ++ [Twist_new].
Proof.
  destruct (loop_eq script s) as [s1 [Hl Hc]].
  unfold run, run_result, try_finally, try_except. rewrite Hl.
  destruct (loop_result script) as [[]|[|]]; simpl;
    (eexists; split; [reflexivity|]; simpl; rewrite Hc, <- app_assoc;
     reflexivity).
Qed.

Lemma init_eq (server : option float) (w : World) :
  __init__ server w =
  (Return (constructed server),
   {| cmd_vel := cmd_vel w; rosout := rosout w ++ [(INFO, NodeStarted)] |}).
Proof. reflexivity. Qed.

(** The program builds the node and runs the loop, whatever the parameter
    server holds. *)
Lemma main_eq (server : option float) (script : list Round) (w : World) :
  cmd_vel (state_of (main server script) w) =
  cmd_vel w ++ loop_commands script (constructed server) ++ [Twist_new].
Proof.
  unfold state_of, main, try_except. rewrite init_eq.
  match goal with |- context [run script ?t] =>
    destruct (run_eq script t) as [s' [Hr Hc]]; rewrite Hr end.
  simpl in Hc. simpl.
  destruct (run_result script) as [[]|[|]]; simpl; exact Hc.
Qed.

(** C7.  Whatever the object holds and however the loop ends (shutdown seen
    by the loop test, an interrupt raised by the sleep, or another exception
    raised there), [run] publishes what the steps of the loop published and
    then exactly one more command, with forward speed and turn rate [0.0];
    nothing follows it.  The exception that is not an interrupt goes on after
    this command.  The same holds of the whole program: what it publishes
    ends with the commands of the steps and then the one stop command. *)
Theorem run_stops_the_car (script : list Round) (s : Sys) :
  emitted (run script) s = emitted (loop script) s ++ [command f0_0 f0_0] /\
  length (emitted (loop script) s) = steps_run script /\
  result_of (run script) s = run_result script /\
  linear_x (command f0_0 f0_0) = f0_0 /\
  angular_z (command f0_0 f0_0) = f0_0 /\
  (forall server w,
      exists steps,
        cmd_vel (state_of (main server script) w) =
          cmd_vel w ++ steps ++ [command f0_0 f0_0] /\
        length steps = steps_run script).
Proof.
  destruct (loop_eq script s) as [s1 [Hl Hc1]].
  destruct (run_eq script s) as [s2 [Hr Hc2]].
  rewrite (@emitted_eq _ (loop script) s s1 _ _ Hl Hc1).
  rewrite (@emitted_eq _ (run script) s s2 _ _ Hr Hc2).
  split; [reflexivity|]. split; [apply loop_commands_length|].
  split; [unfold result_of; rewrite Hr; reflexivity|].
  split; [reflexivity|]. split; [reflexivity|].
  intros server w. exists (loop_commands script (constructed server)).
  split; [apply main_eq | apply loop_commands_length].
Qed.

(** ** Construction *)

(** C4, as the code has it.  [__init__] checks nothing: for every value of
    the [obstacle_threshold] parameter, set or not, it returns the object
    with that threshold (the default [0.3] when unset), the three distances
    at infinity, [linear_speed = 0.2], [angular_speed = 0.5] and rate [10],
    and the program goes on to run the loop.  The values the source fixes
    (the default threshold, the two speeds, the side factor [1.2] and the
    rate) are positive and finite. *)
Theorem construction_always_succeeds (server : option float) (w : World) :
  result_of (__init__ server) w =
    Return {| obstacle_threshold := get_param server f0_3;
              left_dist := inf; front_dist := inf; right_dist := inf;
              linear_speed := f0_2; angular_speed := f0_5; rate := 10 |} /\
  (forall script,
      cmd_vel (state_of (main server script) w) =
      cmd_vel w ++ loop_commands script (constructed server) ++ [Twist_new]) /\
  forallb positive_finite
    [get_param None f0_3; f0_2; f0_5; side_margin_factor; of_Z 10] = true.
Proof.
  split; [reflexivity|]. split; [|reflexivity].
  intros script. apply main_eq.
Qed.

(** C4 fails as stated: with the threshold parameter set to [-1.0], to NaN
    or to infinity, none of them positive and finite, construction returns
    the object, and the program runs the loop: after one round the step's
    command and the stop command have been published. *)
Lemma construction_accepts_bad_threshold :
  existsb positive_finite [minus_one; nan; inf; f0_0] = false /\
  result_of (__init__ (Some minus_one)) empty_world =
    Return (constructed (Some minus_one)) /\
  result_of (__init__ (Some nan)) empty_world = Return (constructed (Some nan)) /\
  result_of (__init__ (Some inf)) empty_world = Return (constructed (Some inf)) /\
  obstacle_threshold (constructed (Some minus_one)) = minus_one /\
  cmd_vel (state_of (main (Some minus_one)
                       [{| arrivals := []; sleep_outcome := Slept |}])
                    empty_world) =
    [command f0_2 f0_0; command f0_0 f0_0].
Proof. repeat split. Qed.

(** ** Unknown readings *)

(** Case analysis on the comparisons a step still has to make, closing the
    cases where the wanted record is plainly not in the log. *)
Ltac step_cases a :=
  repeat match goal with
    | |- context [if (?u <? ?v)%py then _ else _] => destruct (u <? v)%py
    | |- context [if (?u >? ?v)%py then _ else _] => destruct (u >? v)%py
    end;
  simpl; intuition discriminate.

Lemma step_log_front_clear (a : InfraredObstacleAvoider) :
  (front_dist a <? obstacle_threshold a)%py = false ->
  forall d, ~ In (WARN, FrontObstacle d) (step_log a).
Proof.
  intros H d. unfold step_log. rewrite H.
  step_cases a.
Qed.

Lemma step_log_left_clear (a : InfraredObstacleAvoider) :
  (left_dist a <? obstacle_threshold a * side_margin_factor)%py = false ->
  ~ In (INFO, LeftObstacle) (step_log a).
Proof.
  intros H. unfold step_log. rewrite H.
  step_cases a.
Qed.

Lemma step_log_right_clear (a : InfraredObstacleAvoider) :
  (right_dist a <? obstacle_threshold a * side_margin_factor)%py = false ->
  ~ In (INFO, RightObstacle) (step_log a).
Proof.
  intros H. unfold step_log. rewrite H.
  step_cases a.
Qed.

(** C5.  Right after [__init__], whatever the threshold, the three distances
    are infinite and a step publishes a command with [linear.x] equal to
    [linear_speed], [angular.z] equal to [0.0] and nothing else set.  More
    generally an infinite front distance never takes the front branch (the
    command has [linear.x] equal to [linear_speed], and there is no front
    warning), and an infinite left (right) distance never takes the left
    (right) side branch. *)
Theorem unknown_readings_never_avoid :
  (forall server w,
      exists avoider w',
        __init__ server w = (Return avoider, w') /\
        left_dist avoider = inf /\ front_dist avoider = inf /\
        right_dist avoider = inf /\
        exists c,
          emitted avoid_obstacle {| self := avoider; ros := w' |} = [c] /\
          linear_x c = linear_speed avoider /\ angular_z c = f0_0 /\
          planar c) /\
  (forall s,
      front_dist (self s) = inf ->
      (exists c,
          emitted avoid_obstacle s = [c] /\
          linear_x c = linear_speed (self s)) /\
      forall d, ~ In (WARN, FrontObstacle d) (logged avoid_obstacle s)) /\
  (forall s,
      left_dist (self s) = inf ->
      ~ In (INFO, LeftObstacle) (logged avoid_obstacle s)) /\
  (forall s,
      right_dist (self s) = inf ->
      ~ In (INFO, RightObstacle) (logged avoid_obstacle s)).
Proof.
  split; [|split; [|split]].
  - intros server w. eexists. eexists. split; [apply init_eq|].
    repeat split. eexists. split; [apply emitted_step|].
    unfold compute_command; simpl. rewrite !inf_not_lt.
    apply command_fields.
  - intros s Hfront.
    assert (H : (front_dist (self s) <? obstacle_threshold (self s))%py = false)
      by (rewrite Hfront; apply inf_not_lt).
    rewrite emitted_step, logged_step. split.
    + eexists. split; [reflexivity|].
      rewrite (front_clear_command _ H). apply command_fields.
    + apply step_log_front_clear. exact H.
  - intros s Hleft. rewrite logged_step. apply step_log_left_clear.
    rewrite Hleft. apply inf_not_lt.
  - intros s Hright. rewrite logged_step. apply step_log_right_clear.
    rewrite Hright. apply inf_not_lt.
Qed.

Lemma unknown_readings_never_avoid_witness :
  front_dist (self (node_with inf f0_25 f0_25)) = inf /\
  (exists c,
      emitted avoid_obstacle (node_with inf f0_25 f0_25) = [c] /\
      linear_x c = f0_2) /\
  left_dist (self (node_with f0_5 inf f0_25)) = inf /\
  ~ In (INFO, LeftObstacle) (logged avoid_obstacle (node_with f0_5 inf f0_25)).
Proof.
  split; [reflexivity|]. split.
  - apply (proj1 (proj2 unknown_readings_never_avoid)
                 (node_with inf f0_25 f0_25)).
    reflexivity.
  - split; [reflexivity|].
    apply (proj1 (proj2 (proj2 unknown_readings_never_avoid))
                 (node_with f0_5 inf f0_25)).
    reflexivity.
Defined.

(** ** NaN readings *)

Lemma compute_command_unknown_front_right (s : Sys) :
  compute_command (self (unknown_front_right s)) = compute_command (self s).
Proof.
  unfold compute_command; simpl.
  rewrite !unknown_of_nan_lt, unknown_of_nan_right. reflexivity.
Qed.

Lemma compute_command_unknown_all (s : Sys) :
  (front_dist (self s) <? obstacle_threshold (self s))%py = false ->
  compute_command (self (unknown_all s)) = compute_command (self s).
Proof.
  intros H. unfold compute_command; simpl.
  rewrite !unknown_of_nan_lt, H. reflexivity.
Qed.

(** C6 fails as stated: a NaN delivered to [left_cb] is stored as NaN, not
    as infinity, and with the front below the threshold and the right
    distance [1.0] the step turns right on it, while it turns left on an
    infinite left distance. *)
Lemma nan_left_is_not_unknown :
  left_dist (self (state_of (left_cb (reading nan)) fresh_node)) = nan /\
  emitted avoid_obstacle (node_with f0_25 nan f1_0) =
    [command f0_0 (- f0_5)%py] /\
  emitted avoid_obstacle (node_with f0_25 inf f1_0) = [command f0_0 f0_5] /\
  emitted avoid_obstacle (node_with f0_25 nan f1_0) <>
  emitted avoid_obstacle (node_with f0_25 (unknown_of_nan nan) f1_0).
Proof. repeat split. discriminate. Qed.

(** C6, as the code has it.  The callbacks store the range as delivered, NaN
    included.  A step always returns normally with one command.  That
    command is the one of the node with NaN replaced by infinity in the front
    and right readings; when the front is not below the threshold, also with
    NaN replaced in the left reading.  When the front is below the threshold
    and the left reading is NaN, the step turns right. *)
Theorem nan_readings_as_stored (s : Sys) :
  (forall msg,
      left_dist (self (state_of (left_cb msg) s)) = range msg /\
      front_dist (self (state_of (front_cb msg) s)) = range msg /\
      right_dist (self (state_of (right_cb msg) s)) = range msg) /\
  result_of avoid_obstacle s = Return tt /\
  length (emitted avoid_obstacle s) = 1%nat /\
  emitted avoid_obstacle s = emitted avoid_obstacle (unknown_front_right s) /\
  ((front_dist (self s) <? obstacle_threshold (self s))%py = false ->
   emitted avoid_obstacle s = emitted avoid_obstacle (unknown_all s)) /\
  ((front_dist (self s) <? obstacle_threshold (self s))%py = true ->
   is_nan (left_dist (self s)) = true ->
   emitted avoid_obstacle s = [command f0_0 (- angular_speed (self s))%py]).
Proof.
  rewrite !emitted_step. repeat split.
  - unfold result_of. rewrite avoid_obstacle_eq. reflexivity.
  - rewrite compute_command_unknown_front_right. reflexivity.
  - intros H. rewrite (compute_command_unknown_all s H). reflexivity.
  - intros Hfront Hnan. rewrite (front_blocked_command _ Hfront).
    destruct (left_dist (self s)); try discriminate.
    rewrite nan_not_gt. reflexivity.
Qed.

Lemma nan_readings_as_stored_witness :
  (front_dist (self (node_with f0_5 nan f0_25)) <?
   obstacle_threshold (self (node_with f0_5 nan f0_25)))%py = false /\
  emitted avoid_obstacle (node_with f0_5 nan f0_25) =
  emitted avoid_obstacle (unknown_all (node_with f0_5 nan f0_25)) /\
  (front_dist (self (node_with f0_25 nan f1_0)) <?
   obstacle_threshold (self (node_with f0_25 nan f1_0)))%py = true /\
  is_nan (left_dist (self (node_with f0_25 nan f1_0))) = true /\
  emitted avoid_obstacle (node_with f0_25 nan f1_0) =
    [command f0_0 (- f0_5)%py].
Proof.
  split; [reflexivity|]. split.
  - apply (nan_readings_as_stored (node_with f0_5 nan f0_25)). reflexivity.
  - split; [reflexivity|]. split; [reflexivity|].
    apply (nan_readings_as_stored (node_with f0_25 nan f1_0)); reflexivity.
Defined.

(** ** Purity, range and frame *)

Lemma compute_command_inputs (a b : InfraredObstacleAvoider) :
  same_inputs a b -> compute_command a = compute_command b.
Proof.
  intros (Hl & Hf & Hr & Ht & Hv & Hw). unfold compute_command.
  rewrite Hl, Hf, Hr, Ht, Hv, Hw. reflexivity.
Qed.

Lemma emitted_two_steps (s : Sys) :
  emitted (avoid_obstacle ;; avoid_obstacle) s =
  [compute_command (self s); compute_command (self s)].
Proof.
  unfold emitted, state_of, bind. rewrite avoid_obstacle_eq.
  rewrite avoid_obstacle_eq. simpl. rewrite <- app_assoc.
  apply skipn_app_exact.
Qed.

(** C8.  A step publishes exactly one command.  A second step with no
    callback in between publishes the same command again, and so does a step
    of any node with the same three readings and the same threshold and
    speeds, whatever was published or logged before. *)
Theorem step_is_memoryless (s : Sys) :
  exists c,
    emitted avoid_obstacle s = [c] /\
    emitted avoid_obstacle (state_of avoid_obstacle s) = [c] /\
    emitted (avoid_obstacle ;; avoid_obstacle) s = [c; c] /\
    forall s', same_inputs (self s') (self s) ->
               emitted avoid_obstacle s' = [c].
Proof.
  exists (compute_command (self s)).
  rewrite !emitted_step, emitted_two_steps, self_step.
  repeat split.
  intros s' Hsame. rewrite emitted_step, (compute_command_inputs Hsame).
  reflexivity.
Qed.

Lemma step_is_memoryless_witness :
  same_inputs (self (state_of avoid_obstacle (node_with f0_25 f0_5 f0_5)))
              (self (node_with f0_25 f0_5 f0_5)) /\
  emitted avoid_obstacle (state_of avoid_obstacle (node_with f0_25 f0_5 f0_5)) =
  emitted avoid_obstacle (node_with f0_25 f0_5 f0_5).
Proof.
  split; [repeat split|].
  destruct (step_is_memoryless (node_with f0_25 f0_5 f0_5))
    as [c [H1 [_ [_ H4]]]].
  rewrite H1. apply H4. repeat split.
Defined.

(** C9.  In every state the node reaches, the command of a step has forward
    speed [0.0] or [linear_speed], and turn rate [-angular_speed],
    [-angular_speed * 0.5], [0.0], [angular_speed * 0.5] or [angular_speed];
    a turn rate of magnitude [angular_speed] comes only with forward speed
    [0.0], and a forward speed other than zero only with a turn rate of
    magnitude at most [angular_speed * 0.5]. *)
Theorem command_range (s : Sys) :
  reachable s ->
  exists c,
    emitted avoid_obstacle s = [c] /\
    (linear_x c = f0_0 \/ linear_x c = linear_speed (self s)) /\
    (angular_z c = (- angular_speed (self s))%py \/
     angular_z c = (- angular_speed (self s) * f0_5)%py \/
     angular_z c = f0_0 \/
     angular_z c = (angular_speed (self s) * f0_5)%py \/
     angular_z c = angular_speed (self s)) /\
    ((abs (angular_z c) ==? angular_speed (self s))%py = true ->
     linear_x c = f0_0) /\
    ((linear_x c ==? f0_0)%py = false ->
     le (abs (angular_z c)) (angular_speed (self s) * f0_5)%py = true).
Proof.
  intros Hreach. destruct (reachable_speeds Hreach) as [Hlin Hang].
  exists (compute_command (self s)). split; [apply emitted_step|].
  unfold compute_command. rewrite Hlin, Hang.
  destruct (front_dist (self s) <? obstacle_threshold (self s))%py;
    [destruct (left_dist (self s) >? right_dist (self s))%py
    |destruct (left_dist (self s) <? _)%py;
     [|destruct (right_dist (self s) <? _)%py]];
    (split; [auto|]); (split; [auto 6|]);
    (split; [intros H; first [reflexivity | vm_compute in H; discriminate]
            |intros H; first [reflexivity | vm_compute in H; discriminate]]).
Qed.

Lemma command_range_witness :
  reachable (state_of (subscriber infrared_front (reading f0_25)) fresh_node) /\
  exists c,
    emitted avoid_obstacle
      (state_of (subscriber infrared_front (reading f0_25)) fresh_node) = [c] /\
    linear_x c = f0_0 /\ angular_z c = (- f0_5)%py.
Proof.
  assert (R : reachable
                (state_of (subscriber infrared_front (reading f0_25)) fresh_node)).
  { apply reach_cb. apply (@reach_init None empty_world _ _). reflexivity. }
  split; [exact R|].
  destruct (command_range R) as [c [Hc _]].
  exists c. split; [exact Hc|].
  vm_compute in Hc. injection Hc as Hc. subst c. split; reflexivity.
Defined.

(** C10.  A callback replaces the distance of its own sensor by the range of
    the message and leaves the other two distances, the threshold, the
    speeds, the rate and the world as they were; a step leaves the whole
    object as it was. *)
Theorem callbacks_and_step_frame (s : Sys) (msg : Range) :
  state_of (left_cb msg) s =
    {| self := {| obstacle_threshold := obstacle_threshold (self s);
                  left_dist := range msg;
                  front_dist := front_dist (self s);
                  right_dist := right_dist (self s);
                  linear_speed := linear_speed (self s);
                  angular_speed := angular_speed (self s);
                  rate := rate (self s) |};
       ros := ros s |} /\
  state_of (front_cb msg) s =
    {| self := {| obstacle_threshold := obstacle_threshold (self s);
                  left_dist := left_dist (self s);
                  front_dist := range msg;
                  right_dist := right_dist (self s);
                  linear_speed := linear_speed (self s);
                  angular_speed := angular_speed (self s);
                  rate := rate (self s) |};
       ros := ros s |} /\
  state_of (right_cb msg) s =
    {| self := {| obstacle_threshold := obstacle_threshold (self s);
                  left_dist := left_dist (self s);
                  front_dist := front_dist (self s);
                  right_dist := range msg;
                  linear_speed := linear_speed (self s);
                  angular_speed := angular_speed (self s);
                  rate := rate (self s) |};
       ros := ros s |} /\
  self (state_of avoid_obstacle s) = self s.
Proof.
  repeat split. apply self_step.
Qed.

(** ** The scenarios of the specification *)

(** Threshold [0.3]: a clear front goes straight; a blocked front turns to
    the side with more room and to the right on a tie; a near side nudges
    away from it. *)
Example scenarios :
  emitted avoid_obstacle (node_with f0_5 inf inf) = [command f0_2 f0_0] /\
  emitted avoid_obstacle (node_with f0_2 f1_0 f0_5) = [command f0_0 f0_5] /\
  emitted avoid_obstacle (node_with f0_2 f0_5 f0_5) =
    [command f0_0 (- f0_5)%py] /\
  emitted avoid_obstacle (node_with f0_5 f0_25 f1_0) =
    [command f0_2 (- f0_25)%py] /\
  emitted avoid_obstacle (node_with f0_5 f1_0 f0_25) = [command f0_2 f0_25].
Proof. repeat split. Qed.

(** * Further properties of the node *)

(** ** Delivery of sensor messages *)

Lemma dist_of_store (topic t : Topic) (v : float) (a : InfraredObstacleAvoider) :
  dist_of topic (store t v a) = if topic_eqb topic t then v else dist_of topic a.
Proof. destruct topic, t; reflexivity. Qed.

Lemma parameters_store (t : Topic) (v : float) (a : InfraredObstacleAvoider) :
  parameters (store t v a) = parameters a.
Proof. destruct t; reflexivity. Qed.

Lemma stored_dist (topic : Topic) (msgs : list (Topic * Range))
      (a : InfraredObstacleAvoider) :
  dist_of topic (stored msgs a) =
  match last_range topic msgs with
  | Some v => v
  | None => dist_of topic a
  end.
Proof.
  revert a. induction msgs as [|[t msg] rest IH]; intros a; simpl;
    [reflexivity|].
  rewrite IH. destruct (last_range topic rest); [reflexivity|].
  rewrite dist_of_store. destruct (topic_eqb topic t); reflexivity.
Qed.

Lemma parameters_stored (msgs : list (Topic * Range))
      (a : InfraredObstacleAvoider) :
  parameters (stored msgs a) = parameters a.
Proof.
  revert a. induction msgs as [|[t msg] rest IH]; intros a; simpl;
    [reflexivity|].
  rewrite IH. apply parameters_store.
Qed.

(** X1.  After a batch of sensor messages, the distance held for a sensor is
    the range of the last message of the batch on its topic, and the distance
    held before when the batch has none; the delivery does not fail, and it
    leaves the parameters, the published commands and the log alone. *)
Theorem deliver_last_wins (msgs : list (Topic * Range)) (s : Sys)
        (topic : Topic) :
  result_of (deliver msgs) s = Return tt /\
  dist_of topic (self (state_of (deliver msgs) s)) =
    match last_range topic msgs with
    | Some v => v
    | None => dist_of topic (self s)
    end /\
  parameters (self (state_of (deliver msgs) s)) = parameters (self s) /\
  ros (state_of (deliver msgs) s) = ros s.
Proof.
  unfold result_of, state_of. rewrite deliver_eq. simpl.
  split; [reflexivity|]. split; [apply stored_dist|].
  split; [apply parameters_stored | reflexivity].
Qed.

(** X2.  Callbacks of different sensors commute; of two callbacks of the
    same sensor the later one alone decides the state. *)
Theorem callbacks_commute_or_overwrite (t u : Topic) (m n : Range) (s : Sys) :
  (topic_eqb t u = false ->
   state_of (subscriber t m ;; subscriber u n) s =
   state_of (subscriber u n ;; subscriber t m) s) /\
  state_of (subscriber t m ;; subscriber t n) s = state_of (subscriber t n) s.
Proof.
  unfold state_of, bind. rewrite !subscriber_eq. simpl.
  rewrite ?subscriber_eq. simpl. split.
  - intros Hneq. destruct t, u; try discriminate; reflexivity.
  - destruct t; reflexivity.
Qed.

Lemma callbacks_commute_or_overwrite_witness :
  topic_eqb infrared_left infrared_front = false /\
  state_of (subscriber infrared_left (reading f0_25) ;;
            subscriber infrared_front (reading f0_5)) fresh_node =
  state_of (subscriber infrared_front (reading f0_5) ;;
            subscriber infrared_left (reading f0_25)) fresh_node.
Proof.
  split; [reflexivity|].
  apply (callbacks_commute_or_overwrite
           infrared_left infrared_front (reading f0_25) (reading f0_5)
           fresh_node).
  reflexivity.
Defined.

(** ** The whole effect of the loop and of [run] *)

Lemma loop_full (script : list Round) (s : Sys) :
  loop script s =
  (loop_result script,
   {| self := loop_self script (self s);
      ros := {| cmd_vel := cmd_vel (ros s) ++ loop_commands script (self s);
                rosout := rosout (ros s) ++ loop_log script (self s) |} |}).
Proof.
  revert s. induction script as [|round rest IH]; intros s; simpl.
  - destruct s as [a [cv lg]]. unfold ret. simpl. rewrite !app_nil_r.
    reflexivity.
  - unfold bind at 1. rewrite deliver_eq.
    unfold bind at 1. rewrite avoid_obstacle_eq. simpl.
    unfold bind at 1.
    destruct (sleep_outcome round); simpl.
    + rewrite IH. simpl. rewrite <- !app_assoc. reflexivity.
    + rewrite app_nil_r. reflexivity.
    + rewrite app_nil_r. reflexivity.
Qed.

Lemma run_full (script : list Round) (s : Sys) :
  run script s =
  (run_result script,
   {| self := loop_self script (self s);
      ros := {| cmd_vel := cmd_vel (ros s) ++ loop_commands script (self s)
                             ++ [Twist_new];
                rosout := rosout (ros s) ++ loop_log script (self s)
                            ++ (if interrupted script
                                then [(INFO, NodeStopped)] else []) |} |}).
Proof.
  unfold run, run_result, interrupted, try_finally, try_except.
  rewrite loop_full.
  destruct (loop_result script) as [[]|[|]]; simpl;
    rewrite <- ?app_assoc, ?app_nil_r; reflexivity.
Qed.

Lemma emitted_loop (script : list Round) (s : Sys) :
  emitted (loop script) s = loop_commands script (self s).
Proof.
  unfold emitted, state_of. rewrite loop_full. simpl. apply skipn_app_exact.
Qed.

Lemma logged_loop (script : list Round) (s : Sys) :
  logged (loop script) s = loop_log script (self s).
Proof.
  unfold logged, state_of. rewrite loop_full. simpl. apply skipn_app_exact.
Qed.

Lemma logged_run (script : list Round) (s : Sys) :
  logged (run script) s =
  loop_log script (self s)
    ++ (if interrupted script then [(INFO, NodeStopped)] else []).
Proof.
  unfold logged, state_of. rewrite run_full. simpl. apply skipn_app_exact.
Qed.

(** ** What a step logs *)

Lemma compute_command_planar (a : InfraredObstacleAvoider) :
  planar (compute_command a).
Proof.
  unfold compute_command.
  destruct (front_dist a <? _)%py;
    [destruct (left_dist a >? _)%py
    |destruct (left_dist a <? _)%py; [|destruct (right_dist a <? _)%py]];
    repeat split.
Qed.

(** X3.  The log of a step names the command it publishes: a front warning
    with the front distance and a turn record come with a turn on the spot
    to that side, a side record with the nudge away from that side, and no
    record with the command straight ahead.  No other pair occurs; the
    fields of the command other than [linear.x] and [angular.z] are [0.0]. *)
Theorem step_log_matches_command (s : Sys) :
  let a := self s in
  let said := logged avoid_obstacle s in
  exists c,
    emitted avoid_obstacle s = [c] /\
    planar c /\
    ((said = [(WARN, FrontObstacle (front_dist a)); (INFO, TurningLeft)] /\
      linear_x c = f0_0 /\ angular_z c = angular_speed a) \/
     (said = [(WARN, FrontObstacle (front_dist a)); (INFO, TurningRight)] /\
      linear_x c = f0_0 /\ angular_z c = (- angular_speed a)%py) \/
     (said = [(INFO, LeftObstacle)] /\
      linear_x c = linear_speed a /\
      angular_z c = (- angular_speed a * f0_5)%py) \/
     (said = [(INFO, RightObstacle)] /\
      linear_x c = linear_speed a /\
      angular_z c = (angular_speed a * f0_5)%py) \/
     (said = [] /\ linear_x c = linear_speed a /\ angular_z c = f0_0)).
Proof.
  intros a said. unfold said. exists (compute_command a).
  rewrite logged_step, emitted_step. fold a.
  split; [reflexivity|]. split; [apply compute_command_planar|].
  unfold step_log, compute_command.
  destruct (front_dist a <? obstacle_threshold a)%py.
  - destruct (left_dist a >? right_dist a)%py;
      [left | right; left]; repeat split.
  - destruct (left_dist a <? _)%py; [right; right; left; repeat split|].
    destruct (right_dist a <? _)%py;
      [right; right; right; left | right; right; right; right];
      repeat split.
Qed.

Lemma step_log_no_stop (a : InfraredObstacleAvoider) :
  ~ In (INFO, NodeStopped) (step_log a).
Proof. unfold step_log. step_cases a. Qed.

Lemma loop_log_no_stop (script : list Round) (a : InfraredObstacleAvoider) :
  ~ In (INFO, NodeStopped) (loop_log script a).
Proof.
  revert a. induction script as [|round rest IH]; intros a; simpl;
    [tauto|].
  intros Hin. apply in_app_or in Hin. destruct Hin as [Hin|Hin].
  - exact (step_log_no_stop _ Hin).
  - destruct (sleep_outcome round); [exact (IH _ Hin) | exact Hin | exact Hin].
Qed.

Lemma result_loop (script : list Round) (s : Sys) :
  result_of (loop script) s = loop_result script.
Proof. unfold result_of. rewrite loop_full. reflexivity. Qed.

(** X4.  [run] logs that the node stopped only when the loop was left by an
    interrupt of the sleep, as the last record; the steps never log it, so a
    shutdown seen by the loop test, or another exception, leaves no such
    record. *)
Theorem stop_logged_only_on_interrupt (script : list Round) (s : Sys) :
  logged (run script) s =
    logged (loop script) s
      ++ match result_of (loop script) s with
         | Raise ROSInterruptException => [(INFO, NodeStopped)]
         | _ => []
         end /\
  ~ In (INFO, NodeStopped) (logged (loop script) s).
Proof.
  rewrite logged_run, logged_loop, result_loop. unfold interrupted. split.
  - destruct (loop_result script) as [[]|[|]]; reflexivity.
  - apply loop_log_no_stop.
Qed.

(** X5.  The program ends normally when the loop ends normally or by an
    interrupt, and with the exception when the loop ends by another one; an
    interrupt never leaves the program. *)
Theorem main_result (server : option float) (script : list Round)
        (w : World) (s : Sys) :
  result_of (main server script) w =
  match result_of (loop script) s with
  | Raise OtherException => Raise OtherException
  | _ => Return tt
  end.
Proof.
  rewrite result_loop. unfold result_of, main, try_except.
  rewrite init_eq, run_full. unfold run_result. simpl.
  destruct (loop_result script) as [[]|[|]]; reflexivity.
Qed.

(** ** Rounds the loop never gets to *)

Lemma executed_facts (script : list Round) :
  loop_result (executed script) = loop_result script /\
  (forall a, loop_self (executed script) a = loop_self script a) /\
  (forall a, loop_commands (executed script) a = loop_commands script a) /\
  (forall a, loop_log (executed script) a = loop_log script a) /\
  executed (executed script) = executed script /\
  length (executed script) = steps_run script.
Proof.
  induction script as [|round rest (Hr & Hs & Hc & Hl & He & Hn)]; simpl;
    [repeat split|].
  destruct (sleep_outcome round) eqn:Hout; simpl; rewrite ?Hout;
    repeat split; intros; simpl; rewrite ?Hr, ?Hs, ?Hc, ?Hl, ?He, ?Hn;
    reflexivity.
Qed.

(** X6.  Once a sleep raises, the rest of the script is without effect:
    [run] does what it does on the rounds up to that sleep, no later message
    is stored and no later step is taken. *)
Theorem rounds_after_raise_ignored (script : list Round) (s : Sys) :
  run script s = run (executed script) s /\
  executed (executed script) = executed script /\
  length (emitted (loop script) s) = length (executed script).
Proof.
  destruct (executed_facts script) as (Hr & Hs & Hc & Hl & He & Hn).
  rewrite !run_full, emitted_loop. unfold run_result, interrupted.
  rewrite Hr, Hs, Hc, Hl, Hn, loop_commands_length. repeat split. exact He.
Qed.

(** ** Parameters and stale readings *)





Lemma quiet_loop_commands (script : list Round) (a : InfraredObstacleAvoider) :
  Forall (fun round => arrivals round = []) script ->
  loop_commands script a = repeat (compute_command a) (steps_run script).
Proof.
  induction 1 as [|round rest Hq _ IH]; simpl; [reflexivity|].
  rewrite Hq. simpl. destruct (sleep_outcome round); simpl;
    [rewrite IH|..]; reflexivity.
Qed.

(** X8.  While no message arrives the node repeats itself: every step of
    the loop publishes the command of the first one, however old the
    readings are. *)
Theorem stale_readings_repeat (script : list Round) (s : Sys) :
  Forall (fun round => arrivals round = []) script ->
  exists c,
    emitted avoid_obstacle s = [c] /\
    emitted (loop script) s = repeat c (steps_run script).
Proof.
  intros Hquiet. exists (compute_command (self s)).
  rewrite emitted_step, emitted_loop. split; [reflexivity|].
  apply quiet_loop_commands. exact Hquiet.
Qed.

Lemma stale_readings_repeat_witness :
  Forall (fun round => arrivals round = [])
         [quiet_round; quiet_round; failing_round; quiet_round] /\
  exists c,
    emitted avoid_obstacle (node_with f0_5 f0_25 f1_0) = [c] /\
    emitted (loop [quiet_round; quiet_round; failing_round; quiet_round])
            (node_with f0_5 f0_25 f1_0) = repeat c 3.
Proof.
  assert (Q : Forall (fun round => arrivals round = [])
                     [quiet_round; quiet_round; failing_round; quiet_round]).
  { repeat constructor. }
  split; [exact Q|].
  exact (stale_readings_repeat (node_with f0_5 f0_25 f1_0) Q).
Defined.

(** ** Signs of products *)

(** Rounding keeps the sign it is given, or fails to NaN. *)
Lemma binary_round_aux_neg (sx : bool) (mx ex : Z) (lx : location) :
  SFopp (binary_round_aux prec emax sx mx ex lx) =
  binary_round_aux prec emax (negb sx) mx ex lx.
Proof.
  unfold binary_round_aux.
  destruct (shr_fexp prec emax mx ex lx) as [mrs' e'].
  destruct (shr_fexp prec emax _ e' loc_Exact) as [mrs'' e''].
  destruct (shr_m mrs''); [reflexivity| |reflexivity].
  destruct (e'' <=? emax - prec)%Z; reflexivity.
Qed.

Lemma binary_round_aux_not_positive (mx ex : Z) (lx : location) :
  not_positive (binary_round_aux prec emax true mx ex lx) = true.
Proof.
  unfold binary_round_aux.
  destruct (shr_fexp prec emax mx ex lx) as [mrs' e'].
  destruct (shr_fexp prec emax _ e' loc_Exact) as [mrs'' e''].
  destruct (shr_m mrs''); [reflexivity| |reflexivity].
  destruct (e'' <=? emax - prec)%Z; reflexivity.
Qed.

Lemma neg_mul (a b : float) : (- a * b)%py = (- (a * b))%py.
Proof.
  unfold mul, neg, SFmul.
  destruct a as [sa|sa| |sa ma ea], b as [sb|sb| |sb mb eb]; simpl;
    try reflexivity; try (destruct sa, sb; reflexivity).
  rewrite binary_round_aux_neg. destruct sa, sb; reflexivity.
Qed.

Lemma neg_neg (a : float) : (- - a)%py = a.
Proof. destruct a as [sa|sa| |sa ma ea]; simpl; try reflexivity;
         destruct sa; reflexivity. Qed.

Lemma side_bound_not_positive (t : float) :
  not_positive t = true -> not_positive (t * side_margin_factor)%py = true.
Proof.
  destruct t as [st|st| |st mt et]; simpl; intros H; try reflexivity.
  - subst st. reflexivity.
  - subst st. unfold mul, side_margin_factor, f1_2, SFmul. simpl xorb.
    apply binary_round_aux_not_positive.
Qed.

Lemma not_negative_not_lt (v t : float) :
  not_negative v = true -> not_positive t = true -> (v <? t)%py = false.
Proof.
  destruct v as [[]|[]| |[] mv ev], t as [[]|[]| |[] mt et]; simpl;
    intros Hv Ht; try discriminate; reflexivity.
Qed.

(** ** What the node publishes over a whole run *)

Lemma loop_commands_Forall (P : Twist -> Prop)
      (Q : InfraredObstacleAvoider -> Prop) :
  (forall a, Q a -> P (compute_command a)) ->
  (forall msgs a, Q a -> Q (stored msgs a)) ->
  forall script a, Q a -> Forall P (loop_commands script a).
Proof.
  intros HP HQ script. induction script as [|round rest IH]; intros a Ha;
    simpl; constructor.
  - apply HP, HQ, Ha.
  - destruct (sleep_outcome round); [apply IH, HQ, Ha | constructor..].
Qed.

Lemma emitted_run (script : list Round) (s : Sys) :
  emitted (run script) s = loop_commands script (self s) ++ [Twist_new].
Proof.
  unfold emitted, state_of. rewrite run_full. simpl. apply skipn_app_exact.
Qed.

(** X9.  Every command [run] publishes, the stop command included, has
    [linear.y], [linear.z], [angular.x] and [angular.y] at [0.0], whatever the
    object holds: the node only ever drives along its heading and turns about
    the vertical axis. *)
Theorem commands_are_planar (script : list Round) (s : Sys) :
  Forall planar (emitted (run script) s).
Proof.
  rewrite emitted_run. apply Forall_app. split.
  - apply (@loop_commands_Forall planar (fun _ => True));
      [intros a _; apply compute_command_planar | trivial | exact I].
  - constructor; [repeat split | constructor].
Qed.

Lemma stored_speeds (msgs : list (Topic * Range)) (a : InfraredObstacleAvoider) :
  linear_speed a = f0_2 /\ angular_speed a = f0_5 ->
  linear_speed (stored msgs a) = f0_2 /\ angular_speed (stored msgs a) = f0_5.
Proof.
  revert a. induction msgs as [|[t msg] rest IH]; intros a Ha; simpl;
    [exact Ha|].
  apply IH. destruct (store_speeds t (range msg) a) as [Hl Hw].
  rewrite Hl, Hw. exact Ha.
Qed.

Lemma step_keeps_moving (a : InfraredObstacleAvoider) :
  linear_speed a = f0_2 /\ angular_speed a = f0_5 ->
  compute_command a <> Twist_new /\
  ((linear_x (compute_command a) ==? f0_0)%py = false \/
   (angular_z (compute_command a) ==? f0_0)%py = false).
Proof.
  intros [Hl Hw]. unfold compute_command. rewrite Hl, Hw.
  destruct (front_dist a <? _)%py;
    [destruct (left_dist a >? _)%py
    |destruct (left_dist a <? _)%py; [|destruct (right_dist a <? _)%py]];
    (split; [intros E; vm_compute in E; discriminate|]);
    first [left; reflexivity | right; reflexivity].
Qed.

(** X10.  While the program runs, no step publishes the stop command: every
    command of the loop has a forward speed or a turn rate that is not zero.
    The all-zero command is published once, as the last command. *)
Theorem stop_command_only_at_exit (server : option float)
        (script : list Round) (w : World) :
  exists steps,
    cmd_vel (state_of (main server script) w) =
      cmd_vel w ++ steps ++ [Twist_new] /\
    Forall (fun c =>
              c <> Twist_new /\
              ((linear_x c ==? f0_0)%py = false \/
               (angular_z c ==? f0_0)%py = false)) steps.
Proof.
  exists (loop_commands script (constructed server)).
  split; [apply main_eq|].
  apply (@loop_commands_Forall _
           (fun a => linear_speed a = f0_2 /\ angular_speed a = f0_5)).
  - apply step_keeps_moving.
  - intros msgs a. apply stored_speeds.
  - split; reflexivity.
Qed.

(** ** Left and right exchanged *)

Lemma lt_asym (a b : float) : (a <? b)%py = true -> (b <? a)%py = false.
Proof.
  unfold lt, SFltb. rewrite (SFcompare_swap a b).
  destruct (SFcompare a b) as [[ | | ]|]; intros H; try discriminate; reflexivity.
Qed.

Lemma gt_asym (a b : float) : (a >? b)%py = true -> (b >? a)%py = false.
Proof. unfold gt. apply lt_asym. Qed.

(** X11.  Exchanging the left and right distances reverses the turn, when the
    sides can be told apart: with the front below the threshold and one side
    strictly farther than the other, and with the front not below it and
    exactly one side inside the side bound. *)
Theorem swapped_sides_mirror (s : Sys) :
  let a := self s in
  let bound := (obstacle_threshold a * side_margin_factor)%py in
  ((front_dist a <? obstacle_threshold a)%py = true /\
   ((left_dist a >? right_dist a)%py || (right_dist a >? left_dist a)%py)%bool
     = true) \/
  ((front_dist a <? obstacle_threshold a)%py = false /\
   xorb (left_dist a <? bound)%py (right_dist a <? bound)%py = true) ->
  emitted avoid_obstacle (swap_sides s) = map mirror (emitted avoid_obstacle s).
Proof.
  intros a bound H. rewrite !emitted_step. simpl map. f_equal.
  unfold compute_command, swap_sides; simpl. fold a. fold bound.
  destruct H as [[Hfront Hside]|[Hfront Hside]]; rewrite Hfront.
  - destruct (left_dist a >? right_dist a)%py eqn:Hl.
    + rewrite (gt_asym _ _ Hl). reflexivity.
    + simpl in Hside. rewrite Hside. unfold mirror, command; simpl.
      unfold angular_z; simpl. rewrite neg_neg. reflexivity.
  - destruct (left_dist a <? bound)%py, (right_dist a <? bound)%py;
      try discriminate; unfold mirror, command, angular_z; simpl.
    + rewrite neg_mul, neg_neg. reflexivity.
    + rewrite neg_mul. reflexivity.
Qed.

Lemma swapped_sides_mirror_witness :
  ((front_dist (self (node_with f0_25 f1_0 f0_5)) <?
    obstacle_threshold (self (node_with f0_25 f1_0 f0_5)))%py = true /\
   ((left_dist (self (node_with f0_25 f1_0 f0_5)) >?
     right_dist (self (node_with f0_25 f1_0 f0_5)))%py
    || (right_dist (self (node_with f0_25 f1_0 f0_5)) >?
        left_dist (self (node_with f0_25 f1_0 f0_5)))%py)%bool = true) /\
  emitted avoid_obstacle (swap_sides (node_with f0_25 f1_0 f0_5)) =
  map mirror (emitted avoid_obstacle (node_with f0_25 f1_0 f0_5)).
Proof.
  split; [split; reflexivity|].
  apply (swapped_sides_mirror (node_with f0_25 f1_0 f0_5)).
  left. split; reflexivity.
Defined.

(** ** Thresholds that switch the avoidance off or keep it on *)

Lemma finite_lt_inf (v : float) : is_finite v = true -> (v <? inf)%py = true.
Proof. destruct v as [sv|sv| |sv mv ev]; simpl; intros H;
         try discriminate; reflexivity. Qed.

(** X12.  [__init__] accepts any threshold, and two kinds make the decision
    degenerate.  With a threshold that is zero, negative or NaN, no reading
    that is not negative triggers a branch: every step publishes [linear.x]
    equal to [linear_speed] and [angular.z] equal to [0.0].  With an infinite
    threshold every finite front reading counts as an obstacle: the step
    publishes [linear.x] equal to [0.0] and turns by the comparison of the
    sides. *)
Theorem degenerate_thresholds (s : Sys) :
  let a := self s in
  (not_positive (obstacle_threshold a) = true ->
   not_negative (front_dist a) = true ->
   not_negative (left_dist a) = true ->
   not_negative (right_dist a) = true ->
   exists c,
     emitted avoid_obstacle s = [c] /\
     linear_x c = linear_speed a /\ angular_z c = f0_0 /\ planar c) /\
  (obstacle_threshold a = inf ->
   is_finite (front_dist a) = true ->
   exists c,
     emitted avoid_obstacle s = [c] /\
     linear_x c = f0_0 /\
     angular_z c = (if (left_dist a >? right_dist a)%py
                    then angular_speed a else (- angular_speed a)%py) /\
     planar c).
Proof.
  intros a. rewrite emitted_step. fold a. split.
  - intros Ht Hf Hl Hr. exists (compute_command a). split; [reflexivity|].
    rewrite front_clear_command
      by (apply not_negative_not_lt; assumption).
    pose proof (side_bound_not_positive _ Ht) as Hb.
    rewrite (not_negative_not_lt _ _ Hl Hb), (not_negative_not_lt _ _ Hr Hb).
    apply command_fields.
  - intros Ht Hf. exists (compute_command a). split; [reflexivity|].
    rewrite front_blocked_command
      by (rewrite Ht; apply finite_lt_inf; exact Hf).
    apply command_fields.
Qed.

Lemma degenerate_thresholds_witness :
  not_positive (obstacle_threshold (self
     {| self := set_front_dist f0_25
                  (set_left_dist f0_25 (constructed (Some minus_one)));
        ros := empty_world |})) = true /\
  (exists c,
      emitted avoid_obstacle
        {| self := set_front_dist f0_25
                     (set_left_dist f0_25 (constructed (Some minus_one)));
           ros := empty_world |} = [c] /\
      linear_x c = f0_2 /\ angular_z c = f0_0) /\
  is_finite (front_dist (self
     {| self := set_front_dist f1_0 (constructed (Some inf));
        ros := empty_world |})) = true /\
  exists c,
    emitted avoid_obstacle
      {| self := set_front_dist f1_0 (constructed (Some inf));
         ros := empty_world |} = [c] /\
    linear_x c = f0_0 /\ angular_z c = (- f0_5)%py.
Proof.
  split; [reflexivity|]. split.
  - destruct (proj1 (degenerate_thresholds
                {| self := set_front_dist f0_25
                             (set_left_dist f0_25 (constructed (Some minus_one)));
                   ros := empty_world |}) eq_refl eq_refl eq_refl eq_refl)
      as (c & Hc & Hl & Hw & _).
    exists c. split; [exact Hc|]. split; [exact Hl | exact Hw].
  - split; [reflexivity|].
    destruct (proj2 (degenerate_thresholds
                {| self := set_front_dist f1_0 (constructed (Some inf));
                   ros := empty_world |}) eq_refl eq_refl)
      as (c & Hc & Hl & Hw & _).
    exists c. split; [exact Hc|]. split; [exact Hl | exact Hw].
Defined.
